(** * Pre-processing built into the model graph

    A shallow embedding of the notebook
    [notebooks/building_in_processing_in_graph.ipynb]: the custom
    [Normalize] layer (its constructor, [build] and [call]) and the cell
    that assembles the four-layer model with the functional API.

    Tensors are a shape together with a row-major buffer.  The element type
    is left open through the [Arith] interface, with two instances: IEEE
    binary32 (the dtype of [Input((28, 28))]) and the real numbers (the
    arithmetic the rounding is measured against). *)

From Stdlib Require Import ZArith List Bool Arith Lia.
From Stdlib Require Import Reals Lra.
From Stdlib Require Import Floats.SpecFloat.
Import ListNotations.

Set Implicit Arguments.

(** ** Errors raised while a model is assembled or applied *)

Inductive error : Type :=
| ShapeMismatch
| ZeroDivision
| NotBuilt.

Inductive result (T : Type) : Type :=
| Ok (v : T)
| Err (e : error).

Arguments Ok {T} v.
Arguments Err {T} e.

Definition bind {T U : Type} (c : result T) (k : T -> result U) : result U :=
  match c with
  | Ok v => k v
  | Err e => Err e
  end.

Notation "x <- c ;; k" := (bind c (fun x => k))
  (at level 61, c at next level, right associativity).

(** ** Element types

    [lit z] is the value a Python literal with the integral value [z] takes
    in the element type ([255.0] is [lit 255]).  [is_zero] is the test that
    makes a division fail for the element types whose division can fail. *)

Class Arith (A : Type) : Type := {
  lit : Z -> A;
  add : A -> A -> A;
  mul : A -> A -> A;
  truediv : A -> A -> A;
  is_zero : A -> bool
}.

(** The activations that [Dense] looks up by name. *)

Class Activations (A : Type) : Type := {
  relu_fn : A -> A;
  sigmoid_fn : A -> A
}.

(** The one fact about an element type that the notebook relies on. *)

Class ArithLaws (A : Type) `{Arith A} : Prop := {
  scale_nonzero : is_zero (lit 255) = false
}.

Arguments ArithLaws A {_}.

(** IEEE-754 binary32: 24 bits of precision, exponents below 128. *)

Definition binary32 : Type := spec_float.

Definition b32_of_Z (z : Z) : binary32 := binary_normalize 24 128 z 0 false.

Definition b32_is_zero (x : binary32) : bool :=
  match x with
  | S754_zero _ => true
  | _ => false
  end.

#[export] Instance binary32_Arith : Arith binary32 := {|
  lit := b32_of_Z;
  add := SFadd 24 128;
  mul := SFmul 24 128;
  truediv := SFdiv 24 128;
  is_zero := b32_is_zero
|}.

(** The real numbers. *)

Definition R_is_zero (x : R) : bool :=
  if Req_dec_T x 0%R then true else false.

#[export] Instance R_Arith : Arith R := {|
  lit := IZR;
  add := Rplus;
  mul := Rmult;
  truediv := Rdiv;
  is_zero := R_is_zero
|}.

(** Modelled from the spec: the two nonlinearities the notebook names,
    [max(x, 0)] and [1 / (1 + exp(-x))], in real arithmetic. *)

#[export] Instance R_Activations : Activations R := {|
  relu_fn := fun x => Rmax x 0%R;
  sigmoid_fn := fun x => (1 / (1 + exp (- x)))%R
|}.

(** ** Tensors *)

Record tensor (A : Type) : Type := mkTensor {
  shape : list nat;
  data : list A
}.

Definition numel (s : list nat) : nat := fold_right Nat.mul 1 s.

Definition wf {A : Type} (t : tensor A) : Prop :=
  length (data t) = numel (shape t).

Definition full {A : Type} (s : list nat) (v : A) : tensor A :=
  mkTensor s (repeat v (numel s)).

Definition tmap {A : Type} (f : A -> A) (t : tensor A) : tensor A :=
  mkTensor (shape t) (map f (data t)).

(** Row-major position of a multi-index, [None] when it is out of range. *)

Fixpoint offset (s idx : list nat) : option nat :=
  match s, idx with
  | [], [] => Some 0
  | d :: s', i :: idx' =>
      if i <? d
      then option_map (fun o => i * numel s' + o) (offset s' idx')
      else None
  | _, _ => None
  end.

Definition tget {A : Type} (t : tensor A) (idx : list nat) : option A :=
  match offset (shape t) idx with
  | Some o => nth_error (data t) o
  | None => None
  end.

Fixpoint shape_eqb (s1 s2 : list nat) : bool :=
  match s1, s2 with
  | [], [] => true
  | d1 :: s1', d2 :: s2' => (d1 =? d2) && shape_eqb s1' s2'
  | _, _ => false
  end.

Section Elementwise.
Context {A : Type} `{Arith A}.

(** [t / c] with a scalar [c]: the overloaded operator broadcasts the
    division over the whole tensor.  A zero divisor is reported as an
    error, the strictest of the behaviours the element types have (IEEE
    division returns an infinity or a NaN instead). *)

Definition tensor_truediv (t : tensor A) (c : A) : result (tensor A) :=
  if is_zero c then Err ZeroDivision
  else Ok (tmap (fun x => truediv x c) t).

(** [t * c] with a scalar [c]. *)


End Elementwise.

(** ** Layer objects

    A layer object carries its class and the attributes the notebook's
    layers read or write: [kernel], [bias] and the [built] flag.  An
    attribute is unset, [None] or a variable. *)

Inductive activation : Type :=
| relu
| sigmoid.

Inductive layer_class (A : Type) : Type :=
| NormalizeCls
| FlattenCls
| DenseCls (units : nat) (act : activation)
           (kernel_initializer bias_initializer : nat -> A).

Arguments NormalizeCls {A}.
Arguments FlattenCls {A}.

Inductive pyattr (A : Type) : Type :=
| Unset
| PyNone
| PyVar (v : tensor A).

Arguments Unset {A}.
Arguments PyNone {A}.

Record layer (A : Type) : Type := mkLayer {
  cls : layer_class A;
  kernel : pyattr A;
  bias : pyattr A;
  built : bool
}.

Section LayerBase.
Context {A : Type}.

Definition set_kernel (self : layer A) (v : pyattr A) : layer A :=
  mkLayer (cls self) v (bias self) (built self).

Definition set_bias (self : layer A) (v : pyattr A) : layer A :=
  mkLayer (cls self) (kernel self) v (built self).

Definition set_built (self : layer A) (b : bool) : layer A :=
  mkLayer (cls self) (kernel self) (bias self) b.

(** Modelled from the spec: the constructor of the framework's base
    layer, which the notebook only calls.  A new layer holds no attribute
    and is not built. *)

Definition Layer_init (c : layer_class A) : layer A :=
  mkLayer c Unset Unset false.

Definition attr_variables (v : pyattr A) : list (tensor A) :=
  match v with
  | PyVar t => [t]
  | _ => []
  end.

(** Modelled from the spec: the parameters a stage holds, absent from the
    notebook.  They are the variables stored in the attributes of the
    layer. *)

Definition trainable_weights (self : layer A) : list (tensor A) :=
  attr_variables (kernel self) ++ attr_variables (bias self).

(** Modelled from the spec: creation of a parameter, absent from the
    notebook.  The variable has the shape asked for and is filled,
    position by position, by its initializer. *)

Definition add_weight (s : list nat) (initializer : nat -> A) : tensor A :=
  mkTensor s (map initializer (seq 0 (numel s))).

End LayerBase.

Arguments add_weight : simpl never.

(** ** The custom layer of the notebook: [class Normalize(layers.Layer)] *)

Module Normalize.
Section Def.
Context {A : Type} `{Arith A}.

(** [__init__]: only calls the constructor of the base class. *)

Definition init : layer A := Layer_init NormalizeCls.

(** [build]: [self.kernel = None], whatever the input shape. *)

Definition build (self : layer A) (input_shape : list nat) : layer A :=
  set_kernel self PyNone.

(** [call]: [inputs = inputs / 255.0; return inputs].  The assignment
    rebinds the local name; neither [self] nor the argument is written. *)

Definition call (self : layer A) (inputs : tensor A)
  : layer A * result (tensor A) :=
  (self, inputs' <- tensor_truediv inputs (lit 255) ;; Ok inputs').

End Def.
End Normalize.

(** ** The framework layers the notebook instantiates *)

Module Flatten.
Section Def.
Context {A : Type}.

(** Modelled from the spec: the constructor of the flatten stage. *)

Definition init : layer A := Layer_init FlattenCls.

(** Modelled from the spec: the flatten stage of the framework, absent
    from the notebook.  It accepts any rank and keeps the batch axis; the
    other axes collapse into one, the buffer is unchanged. *)

Definition call (self : layer A) (inputs : tensor A)
  : layer A * result (tensor A) :=
  (self,
   match shape inputs with
   | batch :: rest => Ok (mkTensor [batch; numel rest] (data inputs))
   | [] => Err ShapeMismatch
   end).

End Def.
End Flatten.

Module Dense.
Section Def.
Context {A : Type} `{Arith A} `{Activations A}.

(** Modelled from the spec: the constructor of a dense stage, with its
    width, the name of its nonlinearity and its two initializers. *)

Definition init (units : nat) (act : activation)
  (kernel_initializer bias_initializer : nat -> A) : layer A :=
  Layer_init (DenseCls units act kernel_initializer bias_initializer).

(** Modelled from the spec: the nonlinearity a name stands for. *)

Definition activation_fn (act : activation) : A -> A :=
  match act with
  | relu => relu_fn
  | sigmoid => sigmoid_fn
  end.

(** Inner product, row [i] of a row-major [_ x n] buffer and column [j] of
    a row-major [n x units] buffer. *)

Definition dot (xs ys : list A) : A :=
  fold_right (fun p acc => add (mul (fst p) (snd p)) acc) (lit 0)
             (combine xs ys).

Definition row (n i : nat) (xs : list A) : list A :=
  firstn n (skipn (i * n) xs).

Definition column (n units j : nat) (ws : list A) : list A :=
  map (fun k => nth (k * units + j) ws (lit 0)) (seq 0 n).

(** Modelled from the spec: the fully-connected stage of the framework
    (affine map, then the nonlinearity), absent from the notebook.  Entry
    [(i, j)] of the output is [act (x_i . W_j + b_j)]. *)

Definition forward (f : A -> A) (n units : nat) (ws bs : list A)
  (batch : nat) (xs : list A) : list A :=
  flat_map
    (fun i =>
       map (fun j => f (add (dot (row n i xs) (column n units j ws))
                            (nth j bs (lit 0))))
           (seq 0 units))
    (seq 0 batch).

(** Modelled from the spec: a dense stage takes a rank-1 input (per
    example) and then creates its two parameters. *)

Definition build (units : nat) (kernel_initializer bias_initializer : nat -> A)
  (self : layer A) (input_shape : list nat) : result (layer A) :=
  match input_shape with
  | [n] =>
      let k := add_weight [n; units] kernel_initializer in
      let b := add_weight [units] bias_initializer in
      Ok (set_bias (set_kernel self (PyVar k)) (PyVar b))
  | _ => Err ShapeMismatch
  end.

(** Modelled from the spec: the call of a dense stage.  It reads the two
    parameters, which must exist and fit the input, and writes nothing. *)

Definition call (units : nat) (act : activation) (self : layer A)
  (inputs : tensor A) : layer A * result (tensor A) :=
  (self,
   match kernel self, bias self with
   | PyVar k, PyVar b =>
       match shape inputs with
       | [batch; n] =>
           if shape_eqb (shape k) [n; units] && shape_eqb (shape b) [units]
           then Ok (mkTensor [batch; units]
                      (forward (activation_fn act) n units (data k) (data b)
                               batch (data inputs)))
           else Err ShapeMismatch
       | _ => Err ShapeMismatch
       end
   | _, _ => Err NotBuilt
   end).

End Def.
End Dense.

(** ** The pipeline composer

    The functional API of the framework, of which the notebook holds only
    the calls.  Declared shapes leave the batch axis out, as the argument
    of [Input] does. *)

Section Composer.
Context {A : Type} `{Arith A} `{Activations A}.

(** Dispatch of the two methods on the class of the layer object. *)

Definition layer_build (self : layer A) (input_shape : list nat)
  : result (layer A) :=
  match cls self with
  | NormalizeCls => Ok (Normalize.build self input_shape)
  | FlattenCls => Ok self
  | DenseCls units _ ki bi => Dense.build units ki bi self input_shape
  end.

Definition layer_call (self : layer A) (inputs : tensor A)
  : layer A * result (tensor A) :=
  match cls self with
  | NormalizeCls => Normalize.call self inputs
  | FlattenCls => Flatten.call self inputs
  | DenseCls units act _ _ => Dense.call units act self inputs
  end.

(** Modelled from the spec: what a stage accepts.  Any rank for the
    transform and the flatten stage, rank 1 for a dense stage. *)

Definition accepts (c : layer_class A) (s : list nat) : bool :=
  match c with
  | NormalizeCls => true
  | FlattenCls => true
  | DenseCls _ _ _ _ => match s with [_] => true | _ => false end
  end.

(** Modelled from the spec: the output shape a stage declares. *)

Definition compute_output_shape (c : layer_class A) (s : list nat)
  : list nat :=
  match c with
  | NormalizeCls => s
  | FlattenCls => [numel s]
  | DenseCls units _ _ _ => [units]
  end.

(** Modelled from the spec: a symbolic tensor, that is a declared shape
    and the layers that lead to it. *)

Record ktensor : Type := mkK {
  kshape : list nat;
  history : list (layer A)
}.

(** Modelled from the spec: the entry point of a pipeline. *)

Definition Input (s : list nat) : ktensor := mkK s [].

(** Modelled from the spec: [l(x)] on a symbolic tensor [x].  The declared
    shape is validated, the layer is built on it and recorded after the
    layers already there. *)

Definition apply_layer (l : layer A) (x : ktensor) : result ktensor :=
  if accepts (cls l) (kshape x)
  then l' <- layer_build l (kshape x) ;;
       Ok (mkK (compute_output_shape (cls l) (kshape x))
               (history x ++ [set_built l' true]))
  else Err ShapeMismatch.

(** Modelled from the spec: a pipeline, an ordered sequence of stages
    between a declared input shape and a declared output shape. *)

Record pipeline : Type := mkPipeline {
  input_shape : list nat;
  layers : list (layer A);
  output_shape : list nat
}.

(** Modelled from the spec: [Model(inputs, outputs)] keeps the recorded
    layers in the order of the calls. *)

Definition Model (inputs outputs : ktensor) : pipeline :=
  mkPipeline (kshape inputs) (history outputs) (kshape outputs).

(** Assembly of any list of stages on a declared input shape. *)

Fixpoint chain (ls : list (layer A)) (x : ktensor) : result ktensor :=
  match ls with
  | [] => Ok x
  | l :: rest => x' <- apply_layer l x ;; chain rest x'
  end.

Definition assemble (s : list nat) (ls : list (layer A)) : result pipeline :=
  outputs <- chain ls (Input s) ;; Ok (Model (Input s) outputs).

(** The shapes the stages of a list are offered, one after the other. *)

Fixpoint declared_inputs (s : list nat) (cs : list (layer_class A))
  : list (list nat) :=
  match cs with
  | [] => []
  | c :: rest => s :: declared_inputs (compute_output_shape c s) rest
  end.

(** Stage [i] is offered a shape it does not accept. *)

Definition mismatch_at (s : list nat) (cs : list (layer_class A)) (i : nat)
  : Prop :=
  exists c si,
    nth_error cs i = Some c /\
    nth_error (declared_inputs s cs) i = Some si /\
    accepts c si = false.

(** Modelled from the spec: running the stages of a pipeline, first to
    last, each on the output of the one before; a stage that fails stops
    the run. *)

Fixpoint run_layers (ls : list (layer A)) (x : tensor A)
  : list (layer A) * result (tensor A) :=
  match ls with
  | [] => ([], Ok x)
  | l :: rest =>
      let (l', r) := layer_call l x in
      match r with
      | Ok y => let (rest', r') := run_layers rest y in (l' :: rest', r')
      | Err e => (l' :: rest, Err e)
      end
  end.

(** Modelled from the spec: applying a pipeline to a tensor.  The result
    comes with the pipeline as the call leaves it. *)

Definition predict (m : pipeline) (x : tensor A)
  : pipeline * result (tensor A) :=
  let (ls, r) := run_layers (layers m) x in
  (mkPipeline (input_shape m) ls (output_shape m), r).

(** ** The cell that builds the model

    [inputs], [x], [outputs] and [model] are the names of the cell.  The
    kernel and bias initializers of the two dense layers are the
    framework's defaults; they are arguments here, so that the statements
    below hold for every value the parameters can take, those that
    training leaves included.  [model.compile] sets the loss and the
    optimizer and has no part in applying the model. *)

Definition model (k1 b1 k2 b2 : nat -> A) : result pipeline :=
  let inputs := Input [28; 28] in
  x <- apply_layer Normalize.init inputs ;;
  x <- apply_layer Flatten.init x ;;
  x <- apply_layer (Dense.init 128 relu k1 b1) x ;;
  outputs <- apply_layer (Dense.init 10 sigmoid k2 b2) x ;;
  Ok (Model inputs outputs).

(** The four layer objects once they are built. *)

Definition normalize_built : layer A :=
  mkLayer NormalizeCls PyNone Unset true.

Definition flatten_built : layer A :=
  mkLayer FlattenCls Unset Unset true.

Definition dense_built (n units : nat) (act : activation) (ki bi : nat -> A)
  : layer A :=
  mkLayer (DenseCls units act ki bi)
          (PyVar (add_weight [n; units] ki))
          (PyVar (add_weight [units] bi))
          true.

End Composer.

(** ** Pixel values in binary32 *)

Definition b32_eqb (x y : binary32) : bool :=
  match x, y with
  | S754_zero s1, S754_zero s2 => Bool.eqb s1 s2
  | S754_infinity s1, S754_infinity s2 => Bool.eqb s1 s2
  | S754_nan, S754_nan => true
  | S754_finite s1 m1 e1, S754_finite s2 m2 e2 =>
      Bool.eqb s1 s2 && Pos.eqb m1 m2 && Z.eqb e1 e2
  | _, _ => false
  end.

(** The 256 intensities of an 8-bit image. *)

Definition pixels : list Z := map Z.of_nat (seq 0 256).

Definition is_pixel (x : binary32) : bool :=
  existsb (fun k => b32_eqb x (lit k)) pixels.

(** Dividing by [255.0] and multiplying back returns the very same float. *)

Definition roundtrip_exact (x : binary32) : bool :=
  b32_eqb (mul (truediv x (lit 255)) (lit 255)) x.

(** The same for the other order, multiplying first. *)



(** Sum of the scores of one example. *)


(** ** Classes of binary32 values *)

Definition b32_is_nan (x : binary32) : bool :=
  match x with
  | S754_nan => true
  | _ => false
  end.

(** The sign bit, which a NaN does not have here. *)

Definition b32_sign (x : binary32) : option bool :=
  match x with
  | S754_zero s => Some s
  | S754_infinity s => Some s
  | S754_finite s _ _ => Some s
  | S754_nan => None
  end.

(** Zeros and finite numbers, as opposed to infinities and NaN. *)

Definition b32_is_finite (x : binary32) : bool :=
  match x with
  | S754_zero _ => true
  | S754_finite _ _ _ => true
  | _ => false
  end.

Definition b32_in_unit (x : binary32) : bool :=
  SFleb (lit 0) x && SFleb x (lit 1).

(** The 8-bit intensities, each with its quotient by 255.0, and the test
    that two of them are ordered as their quotients are. *)

Definition normalized_pixels : list (binary32 * binary32) :=
  map (fun k => (lit k, truediv (lit k) (lit 255))) pixels.

Definition order_kept (p q : binary32 * binary32) : bool :=
  Bool.eqb (SFltb (snd p) (snd q)) (SFltb (fst p) (fst q)).

(** ** Examples of a batch *)

(** Example [i] of a batch, as a batch of one. *)

Definition example {A : Type} (i : nat) (t : tensor A) : tensor A :=
  match shape t with
  | _ :: rest =>
      mkTensor (1 :: rest)
               (firstn (numel rest) (skipn (i * numel rest) (data t)))
  | [] => t
  end.

Section Variants.
Context {A : Type} `{Arith A} `{Activations A}.

(** The cell of the notebook without its [Normalize()] line: the model
    that needs its input divided by 255.0 beforehand. *)

Definition model_without_normalize (k1 b1 k2 b2 : nat -> A)
  : result pipeline :=
  let inputs := Input [28; 28] in
  x <- apply_layer Flatten.init inputs ;;
  x <- apply_layer (Dense.init 128 relu k1 b1) x ;;
  outputs <- apply_layer (Dense.init 10 sigmoid k2 b2) x ;;
  Ok (Model inputs outputs).

(** The parameters of a pipeline, layer after layer, and their size. *)

Definition weights_of (m : pipeline) : list (tensor A) :=
  flat_map (@trainable_weights A) (layers m).

Definition count_params (m : pipeline) : nat :=
  fold_right Nat.add 0 (map (fun w => numel (shape w)) (weights_of m)).

End Variants.

(** * Properties *)

(** ** Element types *)

#[export] Instance binary32_ArithLaws : ArithLaws binary32.
Proof. constructor. reflexivity. Qed.

Lemma R_scale_nonzero : R_is_zero (IZR 255) = false.
Proof.
  unfold R_is_zero. destruct (Req_dec_T (IZR 255) 0%R) as [E | _].
  - exfalso. lra.
  - reflexivity.
Qed.

#[export] Instance R_ArithLaws : ArithLaws R.
Proof. constructor. exact R_scale_nonzero. Qed.

Lemma b32_eqb_eq : forall x y : binary32, b32_eqb x y = true -> x = y.
Proof.
  intros [s1 | s1 | | s1 m1 e1] [s2 | s2 | | s2 m2 e2]; simpl;
    try discriminate; try reflexivity.
  - intros E. apply Bool.eqb_prop in E. now subst.
  - intros E. apply Bool.eqb_prop in E. now subst.
  - intros E.
    apply andb_true_iff in E as [E Ee].
    apply andb_true_iff in E as [Es Em].
    apply Bool.eqb_prop in Es. apply Pos.eqb_eq in Em. apply Z.eqb_eq in Ee.
    now subst.
Qed.

Lemma b32_eqb_refl : forall x : binary32, b32_eqb x x = true.
Proof.
  intros [s | s | | s m e]; simpl; try reflexivity.
  - apply Bool.eqb_reflx.
  - apply Bool.eqb_reflx.
  - now rewrite Bool.eqb_reflx, Pos.eqb_refl, Z.eqb_refl.
Qed.

(** ** Tensors *)


Lemma shape_tmap : forall A (f : A -> A) (t : tensor A),
  shape (tmap f t) = shape t.
Proof. reflexivity. Qed.

Lemma wf_tmap : forall A (f : A -> A) (t : tensor A), wf t -> wf (tmap f t).
Proof. intros A f t W. unfold wf, tmap. simpl. now rewrite length_map. Qed.

Lemma tget_tmap : forall A (f : A -> A) (t : tensor A) (idx : list nat),
  tget (tmap f t) idx = option_map f (tget t idx).
Proof.
  intros A f t idx. unfold tget. simpl.
  destruct (offset (shape t) idx) as [o |]; [| reflexivity].
  apply nth_error_map.
Qed.

Lemma tmap_tmap : forall A (f g : A -> A) (t : tensor A),
  tmap g (tmap f t) = tmap (fun x => g (f x)) t.
Proof. intros A f g t. unfold tmap. simpl. now rewrite map_map. Qed.

Lemma tmap_id_on : forall A (f : A -> A) (t : tensor A),
  Forall (fun x => f x = x) (data t) -> tmap f t = t.
Proof.
  intros A f [s d] Hall. unfold tmap. simpl in *. f_equal.
  induction Hall as [| x d Hx _ IH]; simpl; [reflexivity |].
  now rewrite Hx, IH.
Qed.

Lemma tmap_full : forall A (f : A -> A) (s : list nat) (v : A),
  tmap f (full s v) = full s (f v).
Proof. intros A f s v. unfold tmap, full. simpl. now rewrite map_repeat. Qed.

Lemma wf_full : forall A (s : list nat) (v : A), wf (full s v).
Proof. intros A s v. unfold wf, full. simpl. apply repeat_length. Qed.

(** ** The [Normalize] layer *)

Section NormalizeFacts.
Context {A : Type} `{ArithLaws A}.

Lemma tensor_truediv_scale : forall t : tensor A,
  tensor_truediv t (lit 255) = Ok (tmap (fun x => truediv x (lit 255)) t).
Proof. intros t. unfold tensor_truediv. now rewrite scale_nonzero. Qed.

Lemma normalize_call_eq : forall (self : layer A) (inputs : tensor A),
  Normalize.call self inputs
  = (self, Ok (tmap (fun x => truediv x (lit 255)) inputs)).
Proof.
  intros self inputs. unfold Normalize.call.
  now rewrite tensor_truediv_scale.
Qed.

End NormalizeFacts.

Example normalize_2x2 :
  snd (Normalize.call Normalize.init
         (mkTensor [2; 2] [b32_of_Z 0; b32_of_Z 51; b32_of_Z 255; b32_of_Z 510]))
  = Ok (mkTensor [2; 2]
          [S754_zero false;
           S754_finite false 13421773 (-26);
           S754_finite false 8388608 (-23);
           S754_finite false 8388608 (-22)]).
Proof. vm_compute. reflexivity. Qed.

Example normalize_2x2_at_1_0 :
  option_map (fun t => tget t [1; 0])
    (match snd (Normalize.call Normalize.init
                  (mkTensor [2; 2]
                     [b32_of_Z 0; b32_of_Z 51; b32_of_Z 255; b32_of_Z 510]))
     with
     | Ok t => Some t
     | Err _ => None
     end)
  = Some (Some (b32_of_Z 1)).
Proof. vm_compute. reflexivity. Qed.

Example normalize_black_image :
  snd (Normalize.call Normalize.init (full [1; 28; 28] (b32_of_Z 0)))
  = Ok (full [1; 28; 28] (S754_zero false)).
Proof. vm_compute. reflexivity. Qed.

Example zero_divisor_is_reported :
  tensor_truediv (mkTensor [1] [b32_of_Z 7]) (b32_of_Z 0) = Err ZeroDivision.
Proof. reflexivity. Qed.



(** C6. On a tensor of shape (1, 28, 28) filled with 255, [Normalize.call]
    returns a tensor of shape (1, 28, 28) filled with 1.0, in binary32 and
    over the reals. *)
Theorem normalize_white_image :
  (forall self : layer binary32,
     Normalize.call self (full [1; 28; 28] (lit 255))
     = (self, Ok (full [1; 28; 28] (lit 1)))) /\
  (forall self : layer R,
     Normalize.call self (full [1; 28; 28] (lit 255))
     = (self, Ok (full [1; 28; 28] (lit 1)))).
Proof.
  split; intros self; rewrite normalize_call_eq, tmap_full.
  - replace (truediv (lit 255) (lit 255) : binary32) with (lit 1 : binary32)
      by (vm_compute; reflexivity).
    reflexivity.
  - replace (truediv (lit 255) (lit 255) : R) with (lit 1 : R)
      by (simpl; field).
    reflexivity.
Qed.

(** C9. The divisor of [Normalize.call] is the literal 255.0, which is not
    zero in binary32 nor in the reals; hence the call returns a tensor for
    every input and never reports a division by zero. *)
Theorem normalize_division_total :
  is_zero (lit 255 : binary32) = false /\
  is_zero (lit 255 : R) = false /\
  (forall (self : layer binary32) (inputs : tensor binary32),
     (exists outputs, snd (Normalize.call self inputs) = Ok outputs) /\
     snd (Normalize.call self inputs) <> Err ZeroDivision) /\
  (forall (self : layer R) (inputs : tensor R),
     (exists outputs, snd (Normalize.call self inputs) = Ok outputs) /\
     snd (Normalize.call self inputs) <> Err ZeroDivision).
Proof.
  split; [reflexivity |]. split; [exact R_scale_nonzero |].
  split; intros self inputs; rewrite normalize_call_eq; simpl;
    (split; [eexists; reflexivity | discriminate]).
Qed.

(** Every 8-bit intensity survives the division and the multiplication. *)

Lemma pixels_roundtrip :
  forallb (fun k => roundtrip_exact (lit k)) pixels = true.
Proof. vm_compute. reflexivity. Qed.

Lemma pixel_roundtrip : forall x : binary32,
  is_pixel x = true -> mul (truediv x (lit 255)) (lit 255) = x.
Proof.
  intros x Hx. unfold is_pixel in Hx.
  apply existsb_exists in Hx as [k [Hk E]].
  apply b32_eqb_eq in E. subst x.
  pose proof pixels_roundtrip as Hall.
  rewrite forallb_forall in Hall. specialize (Hall k Hk).
  now apply b32_eqb_eq in Hall.
Qed.





(** C8. [Normalize] is stateless: [call] hands the layer object back
    unchanged for every input, and for every input shape [build] sets
    [kernel] to [None] and nothing else, so the layer has no trainable
    weight. *)
Theorem normalize_stateless :
  forall (A : Type) (HA : Arith A) (self : layer A) (inputs : tensor A)
         (s : list nat),
    fst (Normalize.call self inputs) = self /\
    kernel (Normalize.build self s) = PyNone /\
    bias (Normalize.build self s) = bias self /\
    built (Normalize.build self s) = built self /\
    cls (Normalize.build self s) = cls self /\
    trainable_weights (Normalize.build self s) = attr_variables (bias self) /\
    trainable_weights (Normalize.build (Normalize.init : layer A) s) = [].
Proof. intros A HA self inputs s. repeat split. Qed.

(** ** The framework layers *)

Lemma flat_map_length_const :
  forall (T U : Type) (g : T -> list U) (k : nat) (l : list T),
    (forall i, length (g i) = k) -> length (flat_map g l) = length l * k.
Proof.
  intros T U g k l Hg. induction l as [| i l IH]; simpl; [reflexivity |].
  rewrite length_app, Hg, IH. reflexivity.
Qed.

Section DenseFacts.
Context {A : Type} `{Arith A} `{Activations A}.

Lemma forward_length :
  forall (f : A -> A) (n units : nat) (ws bs : list A) (batch : nat)
         (xs : list A),
    length (Dense.forward f n units ws bs batch xs) = batch * units.
Proof.
  intros f n units ws bs batch xs. unfold Dense.forward.
  rewrite flat_map_length_const with (k := units).
  - now rewrite length_seq.
  - intros i. now rewrite length_map, length_seq.
Qed.


Lemma dense_call_fst :
  forall (units : nat) (act : activation) (self : layer A) (x : tensor A),
    fst (Dense.call units act self x) = self.
Proof. reflexivity. Qed.


(** ** Running a pipeline *)

Lemma layer_call_fst : forall (l : layer A) (x : tensor A),
  fst (layer_call l x) = l.
Proof. intros l x. unfold layer_call. destruct (cls l); reflexivity. Qed.

Lemma run_layers_cons : forall (l : layer A) (rest : list (layer A)) x,
  run_layers (l :: rest) x
  = match snd (layer_call l x) with
    | Ok y => (l :: fst (run_layers rest y), snd (run_layers rest y))
    | Err e => (l :: rest, Err e)
    end.
Proof.
  intros l rest x. simpl.
  pose proof (layer_call_fst l x) as Hl.
  destruct (layer_call l x) as [l' r]. simpl in *. subst l'.
  destruct r as [y | e]; [| reflexivity].
  now destruct (run_layers rest y).
Qed.

Lemma run_layers_fst : forall (ls : list (layer A)) (x : tensor A),
  fst (run_layers ls x) = ls.
Proof.
  induction ls as [| l ls IH]; intros x; [reflexivity |].
  rewrite run_layers_cons.
  destruct (snd (layer_call l x)) as [y | e]; simpl; [| reflexivity].
  now rewrite IH.
Qed.

Lemma run_layers_snd : forall (l : layer A) (rest : list (layer A)) x,
  snd (run_layers (l :: rest) x)
  = (y <- snd (layer_call l x) ;; snd (run_layers rest y)).
Proof.
  intros l rest x. rewrite run_layers_cons.
  now destruct (snd (layer_call l x)).
Qed.

Lemma predict_fst : forall (m : pipeline) (x : tensor A),
  fst (predict m x) = m.
Proof.
  intros m x. unfold predict.
  pose proof (run_layers_fst (layers m) x) as Hl.
  destruct (run_layers (layers m) x) as [ls r]. simpl in *. subst ls.
  now destruct m.
Qed.

Lemma predict_snd : forall (m : pipeline) (x : tensor A),
  snd (predict m x) = snd (run_layers (layers m) x).
Proof.
  intros m x. unfold predict. now destruct (run_layers (layers m) x).
Qed.

End DenseFacts.

(** C3. Applying a pipeline is deterministic: a call leaves the pipeline
    and all its parameters as they were, so a second call on the same input
    returns the same output. *)
Theorem predict_deterministic :
  forall (A : Type) (HA : Arith A) (HAct : Activations A)
         (m : pipeline) (x : tensor A),
    let (m1, y1) := predict m x in
    let (m2, y2) := predict m1 x in
    m1 = m /\ m2 = m /\ y1 = y2.
Proof.
  intros A HA HAct m x.
  pose proof (predict_fst m x) as H1.
  destruct (predict m x) as [m1 y1] eqn:E1. simpl in H1. subst m1.
  rewrite E1. repeat split.
Qed.

(** ** Assembly *)

Section AssemblyFacts.
Context {A : Type} `{ArithLaws A} `{Activations A}.

Lemma layer_build_error : forall (l : layer A) (s : list nat) (e : error),
  layer_build l s = Err e -> e = ShapeMismatch.
Proof.
  intros l s e. unfold layer_build.
  destruct (cls l) as [| | units act ki bi]; try discriminate.
  unfold Dense.build. destruct s as [| n [| ? ?]]; try discriminate;
    intros E; now injection E.
Qed.

Lemma apply_layer_error : forall (l : layer A) (x : ktensor) (e : error),
  apply_layer l x = Err e -> e = ShapeMismatch.
Proof.
  intros l x e. unfold apply_layer.
  destruct (accepts (cls l) (kshape x)).
  - destruct (layer_build l (kshape x)) as [l' | e'] eqn:B; simpl.
    + discriminate.
    + intros E. injection E as <-. eapply layer_build_error. eassumption.
  - intros E. now injection E.
Qed.

Lemma chain_error : forall (ls : list (layer A)) (x : ktensor) (e : error),
  chain ls x = Err e -> e = ShapeMismatch.
Proof.
  induction ls as [| l ls IH]; intros x e; simpl; [discriminate |].
  destruct (apply_layer l x) as [x' | e'] eqn:E; simpl.
  - apply IH.
  - intros E'. injection E' as <-. eapply apply_layer_error. eassumption.
Qed.

Lemma apply_layer_shape : forall (l : layer A) (x x' : ktensor),
  apply_layer l x = Ok x' ->
  accepts (cls l) (kshape x) = true /\
  kshape x' = compute_output_shape (cls l) (kshape x).
Proof.
  intros l x x'. unfold apply_layer.
  destruct (accepts (cls l) (kshape x)); [| discriminate].
  destruct (layer_build l (kshape x)) as [l' |]; simpl; [| discriminate].
  intros E. injection E as <-. now split.
Qed.

(** A mismatch anywhere in the list makes the chain of calls fail. *)

Lemma chain_mismatch :
  forall (ls : list (layer A)) (x : ktensor) (i : nat),
    mismatch_at (kshape x) (map (@cls A) ls) i ->
    chain ls x = Err ShapeMismatch.
Proof.
  induction ls as [| l ls IH]; intros x i [c [si [Hc [Hs Hacc]]]].
  - destruct i; discriminate.
  - simpl. destruct (apply_layer l x) as [x' | e] eqn:E; simpl.
    + apply apply_layer_shape in E as [Hok Hshape].
      destruct i as [| i]; simpl in Hc, Hs.
      * injection Hc as <-. injection Hs as <-. congruence.
      * apply (IH x' i). exists c, si. rewrite Hshape. now repeat split.
    + f_equal. eapply apply_layer_error. eassumption.
Qed.

(** A layer that was built on a declared shape runs on every tensor of
    that shape. *)

Lemma built_layer_runs :
  forall (l l' : layer A) (s : list nat),
    accepts (cls l) s = true ->
    layer_build l s = Ok l' ->
    forall (batch : nat) (t : tensor A),
      wf t -> shape t = batch :: s ->
      exists y,
        snd (layer_call (set_built l' true) t) = Ok y /\
        wf y /\
        shape y = batch :: compute_output_shape (cls l) s.
Proof.
  intros l l' s Hacc Hb batch t Wt St.
  unfold layer_build in Hb. unfold layer_call.
  destruct (cls l) as [| | units act ki bi] eqn:C.
  - injection Hb as <-. simpl. rewrite C, normalize_call_eq. simpl.
    eexists. split; [reflexivity |]. split; [now apply wf_tmap | exact St].
  - injection Hb as <-. simpl. rewrite C. unfold Flatten.call. simpl.
    rewrite St. eexists. split; [reflexivity |].
    split; [| reflexivity].
    unfold wf in *. simpl. rewrite Wt, St. simpl. lia.
  - simpl in Hacc. destruct s as [| n [| ? ?]]; try discriminate.
    unfold Dense.build in Hb. injection Hb as <-. simpl. rewrite C.
    unfold Dense.call. simpl. rewrite St.
    rewrite !Nat.eqb_refl. simpl.
    eexists. split; [reflexivity |]. split; [| reflexivity].
    unfold wf. simpl. rewrite forward_length. lia.
Qed.

Lemma chain_runs :
  forall (ls : list (layer A)) (x out : ktensor),
    chain ls x = Ok out ->
    exists built_layers,
      history out = history x ++ built_layers /\
      forall (batch : nat) (t : tensor A),
        wf t -> shape t = batch :: kshape x ->
        exists y,
          snd (run_layers built_layers t) = Ok y /\
          wf y /\
          shape y = batch :: kshape out.
Proof.
  induction ls as [| l ls IH]; intros x out; simpl.
  - intros E. injection E as <-. exists []. split.
    + now rewrite app_nil_r.
    + intros batch t Wt St. now exists t.
  - destruct (apply_layer l x) as [x1 |] eqn:E1; simpl; [| discriminate].
    intros E. destruct (IH x1 out E) as [bl [Hh Hrun]].
    unfold apply_layer in E1.
    destruct (accepts (cls l) (kshape x)) eqn:Hacc; [| discriminate].
    destruct (layer_build l (kshape x)) as [l' |] eqn:Hb; simpl in E1;
      [| discriminate].
    injection E1 as <-. simpl in Hh, Hrun.
    exists (set_built l' true :: bl). split.
    + now rewrite Hh, <- app_assoc.
    + intros batch t Wt St.
      edestruct built_layer_runs as [y1 [C1 [W1 S1]]];
        [exact Hacc | exact Hb | exact Wt | exact St |].
      destruct (Hrun batch y1 W1 S1) as [y [C2 [W2 S2]]].
      exists y. rewrite run_layers_snd, C1. simpl. now repeat split.
Qed.

Lemma assemble_runs :
  forall (s : list nat) (ls : list (layer A)) (m : pipeline),
    assemble s ls = Ok m ->
    input_shape m = s /\
    forall (batch : nat) (t : tensor A),
      wf t -> shape t = batch :: s ->
      exists y,
        snd (predict m t) = Ok y /\
        wf y /\
        shape y = batch :: output_shape m.
Proof.
  intros s ls m. unfold assemble.
  destruct (chain ls (Input s)) as [out |] eqn:E; simpl; [| discriminate].
  intros Em. injection Em as <-. split; [reflexivity |].
  apply chain_runs in E as [bl [Hh Hrun]]. simpl in Hh, Hrun.
  intros batch t Wt St. rewrite predict_snd. simpl. rewrite Hh.
  now apply Hrun.
Qed.

End AssemblyFacts.

(** ** The model of the notebook *)

Section ModelFacts.
Context {A : Type} `{Arith A} `{Activations A}.

Lemma model_is_assemble : forall k1 b1 k2 b2 : nat -> A,
  model k1 b1 k2 b2
  = assemble [28; 28]
      [Normalize.init; Flatten.init;
       Dense.init 128 relu k1 b1; Dense.init 10 sigmoid k2 b2].
Proof. reflexivity. Qed.

Lemma model_assembled : forall k1 b1 k2 b2 : nat -> A,
  model k1 b1 k2 b2
  = Ok (mkPipeline [28; 28]
          [normalize_built; flatten_built;
           dense_built 784 128 relu k1 b1;
           dense_built 128 10 sigmoid k2 b2]
          [10]).
Proof. reflexivity. Qed.


End ModelFacts.


(** C7. Assembling [Normalize, Flatten, Dense(128), Dense(10)] on the
    declared input shape (28, 28) succeeds, and the model applied to the
    all-zero tensor of shape (1, 28, 28) returns a tensor of shape
    (1, 10), whatever the parameters. *)
Theorem model_on_zero_image :
  forall (A : Type) (HA : Arith A) (HL : ArithLaws A) (HAct : Activations A)
         (k1 b1 k2 b2 : nat -> A),
  exists m y,
    model k1 b1 k2 b2 = Ok m /\
    input_shape m = [28; 28] /\
    snd (predict m (full [1; 28; 28] (lit 0))) = Ok y /\
    shape y = [1; 10] /\
    length (data y) = 10.
Proof.
  intros A HA HL HAct k1 b1 k2 b2.
  pose proof (model_assembled k1 b1 k2 b2) as Hm.
  pose proof Hm as Ha. rewrite model_is_assemble in Ha.
  apply assemble_runs in Ha as [_ Hrun].
  destruct (Hrun 1 (full [1; 28; 28] (lit 0)) (wf_full _ _) eq_refl)
    as [y [Hy [Wy Sy]]].
  eexists. exists y. split; [exact Hm |]. split; [reflexivity |].
  split; [exact Hy |]. split; [exact Sy |].
  unfold wf in Wy. rewrite Wy, Sy. reflexivity.
Qed.

Lemma model_on_zero_image_witness :
  exists m y,
    model (fun _ => 0%R) (fun _ => 0%R) (fun _ => 0%R) (fun _ => 0%R) = Ok m /\
    input_shape m = [28; 28] /\
    snd (predict m (full [1; 28; 28] 0%R)) = Ok y /\
    shape y = [1; 10] /\
    length (data y) = 10.
Proof.
  apply (@model_on_zero_image R R_Arith).
  constructor. simpl. unfold R_is_zero.
  destruct (Req_dec_T 255 0) as [E | _]; [exfalso; lra | reflexivity].
Defined.

(** ** The sigmoid output *)




(** With a zero kernel every score of the last layer is [sigmoid 0]. *)







(** The model with a zero last layer scores every class one half. *)




(** ** Shape validation at assembly *)

Section ValidationFacts.
Context {A : Type} `{Arith A}.

(** Assembly fails on a mismatch only. *)

Lemma chain_fails_only_on_mismatch :
  forall (ls : list (layer A)) (x : ktensor) (e : error),
    chain ls x = Err e ->
    exists i, mismatch_at (kshape x) (map (@cls A) ls) i.
Proof.
  induction ls as [| l ls IH]; intros x e; simpl; [discriminate |].
  unfold apply_layer.
  destruct (accepts (cls l) (kshape x)) eqn:Hacc.
  - destruct (layer_build l (kshape x)) as [l' | e'] eqn:Hb; simpl.
    + intros E. apply IH in E as [i [c [si [Hc [Hs Hno]]]]]. simpl in Hs.
      exists (S i), c, si. now repeat split.
    + exfalso. unfold layer_build in Hb.
      destruct (cls l) as [| | units act ki bi]; try discriminate.
      simpl in Hacc. unfold Dense.build in Hb.
      destruct (kshape x) as [| n [| ? ?]]; discriminate.
  - intros _. exists 0, (cls l), (kshape x). now repeat split.
Qed.

End ValidationFacts.

(** C4. When some stage of a list is offered a shape it does not accept,
    assembling the list fails with a shape mismatch, so no pipeline exists
    that could be applied; and a pipeline that was assembled runs on every
    tensor of its declared input shape, so no shape error is left for the
    first call. *)
Theorem shape_mismatch_fails_at_assembly :
  forall (A : Type) (HA : Arith A) (HL : ArithLaws A) (HAct : Activations A)
         (s : list nat) (ls : list (layer A)),
    (forall i,
       mismatch_at s (map (@cls A) ls) i ->
       assemble s ls = Err ShapeMismatch) /\
    (forall m,
       assemble s ls = Ok m ->
       forall (batch : nat) (t : tensor A),
         wf t -> shape t = batch :: s ->
         exists y,
           snd (predict m t) = Ok y /\
           shape y = batch :: output_shape m).
Proof.
  intros A HA HL HAct s ls. split.
  - intros i Hi. unfold assemble.
    rewrite chain_mismatch with (i := i) by exact Hi. reflexivity.
  - intros m Hm batch t Wt St.
    apply assemble_runs in Hm as [_ Hrun].
    destruct (Hrun batch t Wt St) as [y [Hy [_ Sy]]].
    now exists y.
Qed.

Lemma shape_mismatch_fails_at_assembly_witness :
  assemble [28; 28]
    [Normalize.init;
     Dense.init 128 relu (fun _ => 0%R) (fun _ => 0%R);
     Dense.init 10 sigmoid (fun _ => 0%R) (fun _ => 0%R)]
  = Err ShapeMismatch /\
  exists y,
    snd (predict
           (mkPipeline [2; 2]
              [flatten_built;
               dense_built 4 1 sigmoid (fun _ => 0%R) (fun _ => 0%R)]
              [1])
           (full [3; 2; 2] 0%R)) = Ok y /\
    shape y = [3; 1].
Proof.
  assert (HL : ArithLaws R).
  { constructor. simpl. unfold R_is_zero.
    destruct (Req_dec_T 255 0) as [E | _]; [exfalso; lra | reflexivity]. }
  split.
  - apply (proj1 (@shape_mismatch_fails_at_assembly
                    R R_Arith HL R_Activations [28; 28] _) 1).
    exists (DenseCls 128 relu (fun _ => 0%R) (fun _ => 0%R)), [28; 28].
    repeat split.
  - apply (proj2 (@shape_mismatch_fails_at_assembly
                    R R_Arith HL R_Activations [2; 2]
                    [Flatten.init;
                     Dense.init 1 sigmoid (fun _ => 0%R) (fun _ => 0%R)])).
    + reflexivity.
    + reflexivity.
    + reflexivity.
Defined.

(** * Further properties of the notebook's code *)

(** ** The range and the order of the normalized intensities *)

Lemma normalize_call_inv :
  forall (A : Type) (HA : Arith A) (HL : ArithLaws A)
         (self : layer A) (T out : tensor A),
    snd (Normalize.call self T) = Ok out ->
    out = tmap (fun x => truediv x (lit 255)) T.
Proof.
  intros A HA HL self T out E. rewrite normalize_call_eq in E.
  simpl in E. now injection E.
Qed.

Lemma pixels_in_unit :
  forallb (fun k => b32_in_unit (truediv (lit k) (lit 255))) pixels = true.
Proof. vm_compute. reflexivity. Qed.

Lemma pixel_in_unit : forall x : binary32,
  is_pixel x = true -> b32_in_unit (truediv x (lit 255)) = true.
Proof.
  intros x Hx. unfold is_pixel in Hx.
  apply existsb_exists in Hx as [k [Hk E]].
  apply b32_eqb_eq in E. subst x.
  pose proof pixels_in_unit as Hall.
  rewrite forallb_forall in Hall. now apply Hall.
Qed.

(** X1. [Normalize.call] takes intensities between 0 and 255 to values
    between 0 and 1: over the reals for every tensor whose elements lie
    in that range, and in binary32 for every tensor of 8-bit
    intensities. *)
Theorem normalize_range :
  (forall (self : layer R) (T : tensor R),
     Forall (fun v => (0 <= v <= 255)%R) (data T) ->
     exists out,
       snd (Normalize.call self T) = Ok out /\
       Forall (fun v => (0 <= v <= 1)%R) (data out)) /\
  (forall (self : layer binary32) (T : tensor binary32),
     forallb is_pixel (data T) = true ->
     exists out,
       snd (Normalize.call self T) = Ok out /\
       forallb b32_in_unit (data out) = true).
Proof.
  split.
  - intros self T HT. eexists. rewrite normalize_call_eq. simpl.
    split; [reflexivity |].
    apply Forall_forall. intros v Hv.
    apply in_map_iff in Hv as [x [E Hx]]. subst v.
    rewrite Forall_forall in HT. specialize (HT x Hx).
    unfold Rdiv. lra.
  - intros self T HT. eexists. rewrite normalize_call_eq. simpl.
    split; [reflexivity |].
    apply forallb_forall. intros v Hv.
    apply in_map_iff in Hv as [x [E Hx]]. subst v.
    rewrite forallb_forall in HT. apply pixel_in_unit. now apply HT.
Qed.

Lemma normalize_range_witness :
  exists out,
    snd (Normalize.call Normalize.init
           (mkTensor [3] [b32_of_Z 0; b32_of_Z 17; b32_of_Z 255])) = Ok out /\
    forallb b32_in_unit (data out) = true.
Proof.
  apply (proj2 normalize_range Normalize.init
           (mkTensor [3] [b32_of_Z 0; b32_of_Z 17; b32_of_Z 255])).
  vm_compute. reflexivity.
Defined.

Lemma pixels_order_kept :
  forallb (fun p => forallb (order_kept p) normalized_pixels)
          normalized_pixels = true.
Proof. vm_compute. reflexivity. Qed.

Lemma pixel_order_kept : forall a b : binary32,
  is_pixel a = true -> is_pixel b = true ->
  SFltb (truediv a (lit 255)) (truediv b (lit 255)) = SFltb a b.
Proof.
  intros a b Ha Hb. unfold is_pixel in Ha, Hb.
  apply existsb_exists in Ha as [ka [Hka Ea]].
  apply existsb_exists in Hb as [kb [Hkb Eb]].
  apply b32_eqb_eq in Ea. apply b32_eqb_eq in Eb. subst a b.
  pose proof pixels_order_kept as Hall.
  rewrite forallb_forall in Hall.
  specialize (Hall _ (in_map (fun k => (lit k, truediv (lit k) (lit 255)))
                             pixels ka Hka)).
  rewrite forallb_forall in Hall.
  specialize (Hall _ (in_map (fun k => (lit k, truediv (lit k) (lit 255)))
                             pixels kb Hkb)).
  unfold order_kept in Hall. now apply Bool.eqb_prop in Hall.
Qed.

Lemma pixel_division_injective : forall a b : binary32,
  is_pixel a = true -> is_pixel b = true ->
  truediv a (lit 255) = truediv b (lit 255) -> a = b.
Proof.
  intros a b Ha Hb E.
  rewrite <- (pixel_roundtrip a Ha), <- (pixel_roundtrip b Hb).
  now rewrite E.
Qed.

(** X2. [Normalize.call] keeps the order of the intensities at any two
    positions of a tensor, and keeps different intensities different:
    over the reals for every tensor, in binary32 for every tensor of
    8-bit intensities. *)
Theorem normalize_keeps_order :
  (forall (self : layer R) (T out : tensor R) (i j : list nat) (a b : R),
     snd (Normalize.call self T) = Ok out ->
     tget T i = Some a -> tget T j = Some b ->
     exists a' b',
       tget out i = Some a' /\ tget out j = Some b' /\
       ((a < b)%R <-> (a' < b')%R) /\ (a = b <-> a' = b')) /\
  (forall (self : layer binary32) (T out : tensor binary32)
          (i j : list nat) (a b : binary32),
     forallb is_pixel (data T) = true ->
     snd (Normalize.call self T) = Ok out ->
     tget T i = Some a -> tget T j = Some b ->
     exists a' b',
       tget out i = Some a' /\ tget out j = Some b' /\
       SFltb a' b' = SFltb a b /\ (a = b <-> a' = b')).
Proof.
  split.
  - intros self T out i j a b Ho Ha Hb.
    apply normalize_call_inv in Ho; [| exact R_ArithLaws]. subst out.
    exists (a / 255)%R, (b / 255)%R.
    rewrite !tget_tmap, Ha, Hb. simpl.
    repeat split; try (intros; unfold Rdiv in *; lra).
  - intros self T out i j a b HT Ho Ha Hb.
    apply normalize_call_inv in Ho; [| exact binary32_ArithLaws]. subst out.
    assert (Hin : forall idx v, tget T idx = Some v -> is_pixel v = true).
    { intros idx v Hv. rewrite forallb_forall in HT. apply HT.
      unfold tget in Hv. destruct (offset (shape T) idx) as [o |];
        [| discriminate].
      eapply nth_error_In. eassumption. }
    exists (truediv a (lit 255)), (truediv b (lit 255)).
    rewrite !tget_tmap, Ha, Hb. simpl.
    split; [reflexivity |]. split; [reflexivity |].
    split; [apply pixel_order_kept; eauto |].
    split; [now intros -> |].
    apply pixel_division_injective; eauto.
Qed.

Lemma normalize_keeps_order_witness :
  exists a' b',
    tget (mkTensor [1; 2]
            [SFdiv 24 128 (b32_of_Z 3) (b32_of_Z 255);
             SFdiv 24 128 (b32_of_Z 200) (b32_of_Z 255)]) [0; 0] = Some a' /\
    tget (mkTensor [1; 2]
            [SFdiv 24 128 (b32_of_Z 3) (b32_of_Z 255);
             SFdiv 24 128 (b32_of_Z 200) (b32_of_Z 255)]) [0; 1] = Some b' /\
    SFltb a' b' = SFltb (b32_of_Z 3) (b32_of_Z 200) /\
    (b32_of_Z 3 = b32_of_Z 200 <-> a' = b').
Proof.
  apply (proj2 normalize_keeps_order Normalize.init
           (mkTensor [1; 2] [b32_of_Z 3; b32_of_Z 200])).
  - vm_compute. reflexivity.
  - vm_compute. reflexivity.
  - reflexivity.
  - reflexivity.
Defined.

(** ** Applying [Normalize] twice, and the tensors it leaves alone *)

Lemma map_fixed : forall (T : Type) (f : T -> T) (l : list T),
  map f l = l <-> Forall (fun x => f x = x) l.
Proof.
  intros T f l. induction l as [| x l IH]; simpl.
  - split; [constructor | reflexivity].
  - split.
    + intros E. injection E as Ex El. constructor; [exact Ex |].
      now apply IH.
    + intros Hall. inversion Hall as [| ? ? Hx Hl]; subst.
      rewrite Hx. f_equal. now apply IH.
Qed.

(** X3. Over the reals, [Normalize.call] applied to its own output divides
    by 65025, so the layer is not idempotent; and it returns its input
    unchanged exactly when every element of the input is zero. *)
Theorem normalize_twice_and_fixed_points :
  forall (self : layer R) (T : tensor R),
    (o <- snd (Normalize.call self T) ;; snd (Normalize.call self o))
    = Ok (tmap (fun x => (x / 65025)%R) T) /\
    (snd (Normalize.call self T) = Ok T
     <-> Forall (fun v => v = 0%R) (data T)).
Proof.
  intros self T. rewrite normalize_call_eq. split.
  - cbn [snd bind]. rewrite normalize_call_eq. cbn [snd].
    rewrite tmap_tmap. f_equal. unfold tmap. f_equal.
    apply map_ext. intros x. simpl. field.
  - cbn [snd]. split.
    + intros E. injection E as E.
      assert (Hm : map (fun x : R => truediv x (lit 255)) (data T) = data T).
      { unfold tmap in E. destruct T as [s d]. simpl in *.
        now injection E. }
      apply map_fixed in Hm.
      eapply Forall_impl; [| exact Hm].
      intros v Hv. simpl in Hv. unfold Rdiv in Hv. lra.
    + intros Hall. f_equal. apply tmap_id_on.
      eapply Forall_impl; [| exact Hall].
      intros v ->. simpl. unfold Rdiv. lra.
Qed.

(** ** Special values of binary32 *)

Section RoundingSigns.
Variables prec emax : Z.

Lemma shr_1_nonneg : forall mrs : shr_record,
  (0 <= shr_m mrs)%Z -> (0 <= shr_m (shr_1 mrs))%Z.
Proof.
  intros [m r s] Hm. simpl in Hm.
  destruct m as [| p | p]; [| destruct p | lia]; simpl; lia.
Qed.

Lemma iter_pos_shr_1_nonneg : forall (p : positive) (mrs : shr_record),
  (0 <= shr_m mrs)%Z -> (0 <= shr_m (iter_pos shr_1 p mrs))%Z.
Proof.
  induction p as [p IH | p IH |]; intros mrs Hm; simpl.
  - apply IH, IH, shr_1_nonneg, Hm.
  - apply IH, IH, Hm.
  - apply shr_1_nonneg, Hm.
Qed.

Lemma shr_fexp_nonneg : forall (m e : Z) (l : location),
  (0 <= m)%Z -> (0 <= shr_m (fst (shr_fexp prec emax m e l)))%Z.
Proof.
  intros m e l Hm. unfold shr_fexp, shr.
  assert (H0 : (0 <= shr_m (shr_record_of_loc m l))%Z)
    by (destruct l as [| []]; exact Hm).
  destruct (fexp prec emax (Zdigits2 m + e) - e)%Z as [| p | p]; simpl;
    try exact H0.
  now apply iter_pos_shr_1_nonneg.
Qed.

Lemma round_nearest_even_nonneg : forall (m : Z) (l : location),
  (0 <= m)%Z -> (0 <= round_nearest_even m l)%Z.
Proof.
  intros m l Hm. unfold round_nearest_even.
  destruct l as [| []]; try destruct (Z.even m); lia.
Qed.

Lemma binary_round_aux_sign : forall (sx : bool) (m e : Z) (l : location),
  (0 <= m)%Z ->
  b32_is_nan (binary_round_aux prec emax sx m e l) = false /\
  b32_sign (binary_round_aux prec emax sx m e l) = Some sx.
Proof.
  intros sx m e l Hm. unfold binary_round_aux.
  pose proof (@shr_fexp_nonneg m e l Hm) as H1.
  destruct (shr_fexp prec emax m e l) as [mrs' e']. simpl in H1.
  pose proof (@shr_fexp_nonneg
                (round_nearest_even (shr_m mrs') (loc_of_shr_record mrs'))
                e' loc_Exact
                (@round_nearest_even_nonneg _ (loc_of_shr_record mrs') H1))
    as H2.
  destruct (shr_fexp prec emax
              (round_nearest_even (shr_m mrs') (loc_of_shr_record mrs'))
              e' loc_Exact) as [mrs'' e'']. simpl in H2.
  destruct (shr_m mrs'') as [| p | p]; [| | lia].
  - now split.
  - destruct (e'' <=? emax - prec)%Z; now split.
Qed.

Lemma SFdiv_core_binary_nonneg : forall (m1 m2 : positive) (e1 e2 : Z),
  (0 <= fst (fst (SFdiv_core_binary prec emax (Zpos m1) e1 (Zpos m2) e2)))%Z.
Proof.
  intros m1 m2 e1 e2. unfold SFdiv_core_binary.
  set (s := (e1 - e2 -
             Z.min (fexp prec emax
                      (Zdigits2 (Zpos m1) + e1 - (Zdigits2 (Zpos m2) + e2)))
                   (e1 - e2))%Z).
  set (m' := match s with
             | Zpos _ => Z.shiftl (Zpos m1) s
             | Z0 => Zpos m1
             | Zneg _ => Z0
             end).
  assert (Hm' : (0 <= m')%Z).
  { unfold m'. destruct s; try lia. apply Z.shiftl_nonneg. lia. }
  pose proof (Z.div_pos m' (Zpos m2) Hm' ltac:(lia)) as Hq.
  unfold Z.div in Hq.
  destruct (Z.div_eucl m' (Zpos m2)) as [q r]. exact Hq.
Qed.

End RoundingSigns.

Lemma div_255_special : forall x : binary32,
  b32_is_nan (truediv x (lit 255)) = b32_is_nan x /\
  b32_sign (truediv x (lit 255)) = b32_sign x /\
  (b32_is_zero x = true -> truediv x (lit 255) = x) /\
  (forall s, x = S754_infinity s -> truediv x (lit 255) = x).
Proof.
  intros x.
  change (lit 255 : binary32) with (S754_finite false 16711680 (-16)).
  destruct x as [s | s | | s m e]; simpl.
  - rewrite xorb_false_r. repeat split; intros; congruence.
  - rewrite xorb_false_r. repeat split; intros; congruence.
  - repeat split; intros; congruence.
  - rewrite xorb_false_r.
    pose proof (SFdiv_core_binary_nonneg 24 128 m 16711680 e (-16)) as Hq.
    destruct (SFdiv_core_binary 24 128 (Zpos m) e (Zpos 16711680) (-16))
      as [[mz ez] lz]. simpl in Hq.
    destruct (@binary_round_aux_sign 24 128 s mz ez lz Hq) as [Hn Hs].
    rewrite Hn, Hs. repeat split; intros; discriminate.
Qed.

(** X4. In binary32 [Normalize.call] produces a NaN only where the input
    holds one, keeps the sign of every other element, and leaves zeros
    and infinities as they are. *)
Theorem normalize_special_values :
  forall (self : layer binary32) (T out : tensor binary32)
         (idx : list nat) (x : binary32),
    snd (Normalize.call self T) = Ok out ->
    tget T idx = Some x ->
    exists y,
      tget out idx = Some y /\
      b32_is_nan y = b32_is_nan x /\
      b32_sign y = b32_sign x /\
      (b32_is_zero x = true -> y = x) /\
      (forall s, x = S754_infinity s -> y = x).
Proof.
  intros self T out idx x Ho Hx.
  apply normalize_call_inv in Ho; [| exact binary32_ArithLaws]. subst out.
  exists (truediv x (lit 255)). rewrite tget_tmap, Hx. simpl.
  split; [reflexivity |]. apply div_255_special.
Qed.

Lemma normalize_special_values_witness :
  exists y,
    tget (tmap (fun x => SFdiv 24 128 x (b32_of_Z 255))
            (mkTensor [2; 2]
               [S754_nan; S754_infinity true;
                S754_zero true; S754_finite true 12582912 (-16)])) [0; 1]
    = Some y /\
    b32_is_nan y = b32_is_nan (S754_infinity true) /\
    b32_sign y = b32_sign (S754_infinity true) /\
    (b32_is_zero (S754_infinity true) = true -> y = S754_infinity true) /\
    (forall s, S754_infinity true = S754_infinity s -> y = S754_infinity true).
Proof.
  apply (@normalize_special_values Normalize.init
           (mkTensor [2; 2]
              [S754_nan; S754_infinity true;
               S754_zero true; S754_finite true 12582912 (-16)])).
  - reflexivity.
  - reflexivity.
Defined.

(** ** [Normalize] and the layers around it *)

(** X5. [Normalize] and the flatten stage commute: dividing then
    flattening gives what flattening then dividing gives, the failure on a
    tensor without axes included. *)
Theorem normalize_commutes_with_flatten :
  forall (A : Type) (HA : Arith A) (HL : ArithLaws A)
         (l1 l2 : layer A) (x : tensor A),
    (o <- snd (Normalize.call l1 x) ;; snd (Flatten.call l2 o))
    = (o <- snd (Flatten.call l2 x) ;; snd (Normalize.call l1 o)).
Proof.
  intros A HA HL l1 l2 x. rewrite normalize_call_eq.
  unfold Flatten.call. cbn [snd bind shape tmap].
  destruct (shape x) as [| batch rest]; cbn [bind]; [reflexivity |].
  rewrite normalize_call_eq. reflexivity.
Qed.

Lemma normalize_commutes_with_flatten_witness :
  (o <- snd (Normalize.call Normalize.init
               (mkTensor [1; 2; 2]
                  [b32_of_Z 0; b32_of_Z 85; b32_of_Z 170; b32_of_Z 255])) ;;
   snd (Flatten.call Flatten.init o))
  = (o <- snd (Flatten.call Flatten.init
                 (mkTensor [1; 2; 2]
                    [b32_of_Z 0; b32_of_Z 85; b32_of_Z 170; b32_of_Z 255])) ;;
     snd (Normalize.call Normalize.init o)).
Proof.
  apply (@normalize_commutes_with_flatten binary32 binary32_Arith).
  constructor. reflexivity.
Defined.

Section VariantFacts.
Context {A : Type} `{Arith A} `{Activations A}.

Lemma model_without_normalize_assembled : forall k1 b1 k2 b2 : nat -> A,
  model_without_normalize k1 b1 k2 b2
  = Ok (mkPipeline [28; 28]
          [flatten_built;
           dense_built 784 128 relu k1 b1;
           dense_built 128 10 sigmoid k2 b2]
          [10]).
Proof. reflexivity. Qed.

Lemma wf_add_weight : forall (s : list nat) (k : nat -> A),
  wf (add_weight s k).
Proof.
  intros s k. unfold wf, add_weight. simpl.
  now rewrite length_map, length_seq.
Qed.

End VariantFacts.



(** X7. For every batch size, the empty batch included, the model applied
    to a batch of 28 x 28 images returns one row of ten scores per
    image. *)
Theorem model_output_shape_for_batches :
  forall (A : Type) (HA : Arith A) (HL : ArithLaws A) (HAct : Activations A)
         (k1 b1 k2 b2 : nat -> A) (batch : nat) (x : tensor A),
    wf x ->
    shape x = [batch; 28; 28] ->
    exists m y,
      model k1 b1 k2 b2 = Ok m /\
      snd (predict m x) = Ok y /\
      shape y = [batch; 10] /\
      length (data y) = batch * 10.
Proof.
  intros A HA HL HAct k1 b1 k2 b2 batch x Wx Sx.
  pose proof (model_assembled k1 b1 k2 b2) as Hm.
  pose proof Hm as Ha. rewrite model_is_assemble in Ha.
  apply assemble_runs in Ha as [_ Hrun].
  destruct (Hrun batch x Wx Sx) as [y [Hy [Wy Sy]]].
  eexists. exists y. split; [exact Hm |]. split; [exact Hy |].
  split; [exact Sy |].
  unfold wf in Wy. rewrite Wy, Sy. simpl. lia.
Qed.

Lemma model_output_shape_for_batches_witness :
  exists m y,
    model (fun _ => 0%R) (fun _ => 0%R) (fun _ => 0%R) (fun _ => 0%R) = Ok m /\
    snd (predict m (full [32; 28; 28] 0%R)) = Ok y /\
    shape y = [32; 10] /\
    length (data y) = 32 * 10.
Proof.
  apply (@model_output_shape_for_batches R R_Arith).
  - constructor. simpl. unfold R_is_zero.
    destruct (Req_dec_T 255 0) as [E | _]; [exfalso; lra | reflexivity].
  - reflexivity.
  - reflexivity.
Defined.

(** X9. Whatever the initializers, the parameters of the assembled model
    are the kernel and the bias of the two dense layers, of shapes
    (784, 128), (128), (128, 10) and (10), each filled position by
    position by its initializer: 784 * 128 + 128 + 128 * 10 + 10 = 101770
    numbers in all, none of them held
    by [Normalize] or by the flatten layer; and every layer is built. *)
Theorem model_parameters :
  forall (A : Type) (HA : Arith A) (HAct : Activations A)
         (k1 b1 k2 b2 : nat -> A),
  exists m,
    model k1 b1 k2 b2 = Ok m /\
    weights_of m
    = [add_weight [784; 128] k1; add_weight [128] b1;
       add_weight [128; 10] k2; add_weight [10] b2] /\
    map (@shape A) (weights_of m) = [[784; 128]; [128]; [128; 10]; [10]] /\
    Forall wf (weights_of m) /\
    count_params m = 784 * 128 + 128 + (128 * 10 + 10) /\
    map (fun l => length (trainable_weights l)) (layers m) = [0; 0; 2; 2] /\
    map (@built A) (layers m) = [true; true; true; true].
Proof.
  intros A HA HAct k1 b1 k2 b2. eexists.
  split; [apply model_assembled |].
  split; [reflexivity |]. split; [reflexivity |].
  split; [repeat constructor; apply wf_add_weight |].
  split; [| split; reflexivity].
  unfold count_params, weights_of. cbn [layers flat_map map].
  reflexivity.
Qed.

(** ** The examples of a batch are scored independently *)


Lemma example_length :
  forall (T : Type) (d : list T) (n b i : nat),
    length d = b * n -> i < b ->
    length (firstn n (skipn (i * n) d)) = n.
Proof.
  intros T d n b i Hd Hi. rewrite length_firstn, length_skipn, Hd. nia.
Qed.

Lemma example_wf : forall (T : Type) (t : tensor T) (b i : nat) (s : list nat),
  wf t -> shape t = b :: s -> i < b ->
  wf (example i t) /\ shape (example i t) = 1 :: s.
Proof.
  intros T t b i s Wt St Hi. unfold example. rewrite St. split; [| reflexivity].
  unfold wf in *. cbn [data shape]. rewrite St in Wt.
  change (numel (b :: s)) with (b * numel s) in Wt.
  change (numel (1 :: s)) with (1 * numel s).
  rewrite (example_length _ _ Wt Hi). lia.
Qed.


Section ExampleFacts.
Context {A : Type} `{ArithLaws A} `{Activations A}.


(** A built layer scores example [i] alone as it scores it in the batch. *)



End ExampleFacts.



(** ** Folding the division into the first kernel *)

Lemma dot_scale : forall (c : R) (xs ws : list R),
  Dense.dot (map (fun v => (v / c)%R) xs) ws
  = Dense.dot xs (map (fun w => (w / c)%R) ws).
Proof.
  intros c. unfold Dense.dot.
  induction xs as [| x xs IH]; intros [| w ws]; try reflexivity.
  cbn [map combine fold_right fst snd]. rewrite IH. simpl.
  unfold Rdiv. ring.
Qed.

Lemma row_map : forall (f : R -> R) (n i : nat) (xs : list R),
  Dense.row n i (map f xs) = map f (Dense.row n i xs).
Proof.
  intros f n i xs. unfold Dense.row. now rewrite skipn_map, firstn_map.
Qed.

Lemma column_scale : forall (c : R) (n units j : nat) (ws : list R),
  Dense.column n units j (map (fun w => (w / c)%R) ws)
  = map (fun w => (w / c)%R) (Dense.column n units j ws).
Proof.
  intros c n units j ws. unfold Dense.column. rewrite map_map.
  apply map_ext. intros k. cbn [lit R_Arith].
  replace (IZR 0) with (0 / c)%R at 1 by (unfold Rdiv; ring).
  exact (map_nth (fun w => (w / c)%R) ws 0%R (k * units + j)).
Qed.

Lemma forward_scale :
  forall (c : R) (f : R -> R) (n units : nat) (ws bs : list R)
         (batch : nat) (xs : list R),
    Dense.forward f n units ws bs batch (map (fun v => (v / c)%R) xs)
    = Dense.forward f n units (map (fun w => (w / c)%R) ws) bs batch xs.
Proof.
  intros c f n units ws bs batch xs. unfold Dense.forward.
  apply flat_map_ext. intros i. apply map_ext. intros j.
  now rewrite row_map, dot_scale, column_scale.
Qed.

Lemma dense_scale_first :
  forall (n units : nat) (act : activation) (ki bi : nat -> R)
         (t : tensor R),
    snd (Dense.call units act (dense_built n units act ki bi)
           (tmap (fun v => (v / 255)%R) t))
    = snd (Dense.call units act
             (dense_built n units act (fun p => (ki p / 255)%R) bi) t).
Proof.
  intros n units act ki bi t.
  unfold Dense.call, dense_built. cbn [snd kernel bias shape tmap data].
  change (shape (add_weight [n; units] ki)) with [n; units].
  change (shape (add_weight [n; units] (fun p => (ki p / 255)%R)))
    with [n; units].
  destruct (shape t) as [| batch [| n' [| ? ?]]]; try reflexivity.
  destruct (shape_eqb [n; units] [n'; units]
            && shape_eqb (shape (add_weight [units] bi)) [units]);
    [| reflexivity].
  do 2 f_equal.
  change (data (add_weight [n; units] ki))
    with (map ki (seq 0 (numel [n; units]))).
  change (data (add_weight [n; units] (fun p => (ki p / 255)%R)))
    with (map (fun p => (ki p / 255)%R) (seq 0 (numel [n; units]))).
  rewrite forward_scale, map_map. reflexivity.
Qed.

(** X10. Over the reals the [Normalize] layer can be folded into the
    parameters: the model of the notebook returns, on every tensor, what
    the model without [Normalize] returns when the kernel of its first
    dense layer is divided by 255. *)
Theorem normalize_folds_into_first_kernel :
  forall (k1 b1 k2 b2 : nat -> R) (x : tensor R),
  exists m m',
    model k1 b1 k2 b2 = Ok m /\
    model_without_normalize (fun p => (k1 p / 255)%R) b1 k2 b2 = Ok m' /\
    snd (predict m x) = snd (predict m' x).
Proof.
  intros k1 b1 k2 b2 x. eexists. eexists.
  split; [apply model_assembled |].
  split; [apply model_without_normalize_assembled |].
  rewrite !predict_snd. cbn [layers]. rewrite !run_layers_snd.
  change (layer_call normalize_built x) with (Normalize.call normalize_built x).
  rewrite normalize_call_eq. cbn [snd bind]. rewrite run_layers_snd.
  change (layer_call flatten_built ?t) with (Flatten.call flatten_built t).
  unfold Flatten.call. cbn [snd shape tmap data].
  destruct (shape x) as [| batch rest]; cbn [bind]; [reflexivity |].
  rewrite !run_layers_snd.
  change (layer_call (dense_built 784 128 relu ?k ?b) ?t)
    with (Dense.call 128 relu (dense_built 784 128 relu k b) t).
  change (mkTensor [batch; numel rest]
            (map (fun v : R => truediv v (lit 255)) (data x)))
    with (tmap (fun v => (v / 255)%R)
               (mkTensor [batch; numel rest] (data x))).
  rewrite dense_scale_first. reflexivity.
Qed.

(** ** No overflow in binary32 *)

Unset Implicit Arguments.

Section NoOverflow.
Local Open Scope Z_scope.

Lemma digits2_pos_size : forall p, digits2_pos p = Pos.size p.
Proof. induction p; simpl; congruence. Qed.

Lemma Zdigits2_nonneg : forall m, 0 <= m -> 0 <= Zdigits2 m.
Proof. intros [|p|p] H; simpl; lia. Qed.

Lemma Zdigits2_gt : forall m, 0 <= m -> m < 2 ^ Zdigits2 m.
Proof.
  intros [|p|p] H; simpl Zdigits2; try lia.
  rewrite digits2_pos_size.
  pose proof (Pos.size_gt p) as Hs.
  apply Pos2Z.pos_lt_pos in Hs. now rewrite Pos2Z.inj_pow in Hs.
Qed.

Lemma Zdigits2_le : forall m k, 0 <= k -> 0 <= m < 2 ^ k -> Zdigits2 m <= k.
Proof.
  intros [|p|p] k Hk [H0 Hm]; simpl Zdigits2; try lia.
  rewrite digits2_pos_size.
  pose proof (Pos.size_le p) as Hs.
  apply Pos2Z.pos_le_pos in Hs. rewrite Pos2Z.inj_pow in Hs.
  assert (Hlt : 2 ^ Z.pos (Pos.size p) < 2 ^ (k + 1)).
  { rewrite Z.pow_add_r by lia. change (Z.pos p~0) with (2 * Z.pos p) in Hs. lia. }
  apply Z.pow_lt_mono_r_iff in Hlt; lia.
Qed.

Lemma shr_1_half : forall mrs, 0 <= shr_m mrs ->
  0 <= shr_m (shr_1 mrs) /\ 2 * shr_m (shr_1 mrs) <= shr_m mrs.
Proof.
  intros [m r s] Hm. simpl in Hm.
  destruct m as [| p | p]; [| destruct p | lia]; simpl; lia.
Qed.

Lemma iter_shr_1_bound : forall p mrs, 0 <= shr_m mrs ->
  0 <= shr_m (iter_pos shr_1 p mrs) /\
  shr_m (iter_pos shr_1 p mrs) * 2 ^ Z.pos p <= shr_m mrs.
Proof.
  induction p as [p IH | p IH |]; intros mrs Hm; simpl iter_pos.
  - destruct (shr_1_half mrs Hm) as [H1 H1'].
    destruct (IH _ H1) as [H2 H2'].
    destruct (IH _ H2) as [H3 H3'].
    split; [exact H3 |].
    replace (Z.pos p~1) with (Z.pos p + Z.pos p + 1) by lia.
    rewrite !Z.pow_add_r by lia.
    assert (0 < 2 ^ Z.pos p) by (apply Z.pow_pos_nonneg; lia).
    nia.
  - destruct (IH _ Hm) as [H2 H2'].
    destruct (IH _ H2) as [H3 H3'].
    split; [exact H3 |].
    replace (Z.pos p~0) with (Z.pos p + Z.pos p) by lia.
    rewrite !Z.pow_add_r by lia.
    assert (0 < 2 ^ Z.pos p) by (apply Z.pow_pos_nonneg; lia).
    nia.
  - destruct (shr_1_half mrs Hm) as [H1 H1']. split; [exact H1 | lia].
Qed.

Lemma shr_fexp_spec : forall prec emax m e l, 0 <= m ->
  0 <= shr_m (fst (shr_fexp prec emax m e l)) /\
  (snd (shr_fexp prec emax m e l) = e \/
   snd (shr_fexp prec emax m e l) = fexp prec emax (Zdigits2 m + e)) /\
  Zdigits2 (shr_m (fst (shr_fexp prec emax m e l)))
    + snd (shr_fexp prec emax m e l)
  <= Z.max (Zdigits2 m + e) (snd (shr_fexp prec emax m e l)).
Proof.
  intros prec emax m e l Hm. unfold shr_fexp, shr.
  assert (H0 : shr_m (shr_record_of_loc m l) = m)
    by (destruct l as [| []]; reflexivity).
  destruct (fexp prec emax (Zdigits2 m + e) - e) as [| n | n] eqn:N;
    cbn [fst snd]; rewrite ?H0.
  - repeat split; lia.
  - destruct (iter_shr_1_bound n (shr_record_of_loc m l)) as [Hr Hr'];
      [rewrite H0; exact Hm |].
    rewrite H0 in Hr'.
    set (r := shr_m (iter_pos shr_1 n (shr_record_of_loc m l))) in *.
    split; [exact Hr |]. split; [right; lia |].
    destruct (Z.eq_dec r 0) as [-> | Hnz]; [simpl; lia |].
    pose proof (Zdigits2_gt m Hm) as Hd.
    pose proof (Zdigits2_nonneg m Hm) as Hd0.
    assert (Hp : 0 < 2 ^ Z.pos n) by (apply Z.pow_pos_nonneg; lia).
    assert (Hn : Z.pos n < Zdigits2 m).
    { apply (Z.pow_lt_mono_r_iff 2); [lia | lia | nia]. }
    assert (Hrk : r < 2 ^ (Zdigits2 m - Z.pos n)).
    { apply (Z.mul_lt_mono_pos_r (2 ^ Z.pos n)); [exact Hp |].
      rewrite <- Z.pow_add_r by lia.
      replace (Zdigits2 m - Z.pos n + Z.pos n) with (Zdigits2 m) by lia.
      lia. }
    pose proof (Zdigits2_le r (Zdigits2 m - Z.pos n) ltac:(lia) ltac:(lia)).
    lia.
  - repeat split; lia.
Qed.

Lemma round_nearest_even_bounds : forall m l, 0 <= m ->
  m <= round_nearest_even m l <= m + 1.
Proof.
  intros m l Hm. unfold round_nearest_even.
  destruct l as [| []]; try destruct (Z.even m); lia.
Qed.

Lemma binary_round_aux_finite : forall sx m e l,
  0 <= m -> Zdigits2 m + e <= 127 -> e <= 104 ->
  match binary_round_aux 24 128 sx m e l with
  | S754_zero _ | S754_finite _ _ _ => True
  | _ => False
  end.
Proof.
  intros sx m e l Hm Hd He. unfold binary_round_aux.
  destruct (shr_fexp_spec 24 128 m e l Hm) as [H1 [H1e H1d]].
  destruct (shr_fexp 24 128 m e l) as [mrs' e']. cbn [fst snd] in *.
  assert (He' : e' <= 104).
  { destruct H1e as [-> | ->]; [lia |]. unfold fexp, emin. lia. }
  pose proof (round_nearest_even_bounds (shr_m mrs') (loc_of_shr_record mrs') H1)
    as Hr.
  set (m1 := round_nearest_even (shr_m mrs') (loc_of_shr_record mrs')) in *.
  assert (Hm1 : 0 <= m1) by lia.
  assert (Hd1 : Zdigits2 m1 + e' <= 128).
  { pose proof (Zdigits2_gt _ H1) as Hg.
    pose proof (Zdigits2_nonneg _ H1) as Hn.
    assert (Hlt : m1 < 2 ^ (Zdigits2 (shr_m mrs') + 1)).
    { rewrite Z.pow_add_r by lia. lia. }
    pose proof (Zdigits2_le m1 (Zdigits2 (shr_m mrs') + 1) ltac:(lia) ltac:(lia)).
    lia. }
  destruct (shr_fexp_spec 24 128 m1 e' loc_Exact Hm1) as [H2 [H2e _]].
  destruct (shr_fexp 24 128 m1 e' loc_Exact) as [mrs'' e'']. cbn [fst snd] in *.
  assert (He'' : e'' <= 104).
  { destruct H2e as [-> | ->]; [lia |]. unfold fexp, emin. lia. }
  destruct (shr_m mrs'') as [| p | p]; [exact I | | lia].
  replace (e'' <=? 128 - 24) with true by (symmetry; apply Z.leb_le; lia).
  exact I.
Qed.

Lemma div_255_core_bounds : forall m e,
  bounded 24 128 m e = true ->
  let '(mz, ez, lz) := SFdiv_core_binary 24 128 (Z.pos m) e (Z.pos 16711680) (-16) in
  0 <= mz /\ Zdigits2 mz + ez <= 127 /\ ez <= 104.
Proof.
  intros m e Hb. unfold bounded, canonical_mantissa in Hb.
  apply andb_true_iff in Hb as [Hc He].
  apply Z.leb_le in He. apply Z.eqb_eq in Hc.
  unfold SFdiv_core_binary.
  change (Zdigits2 (Z.pos 16711680)) with 24.
  change (Zdigits2 (Z.pos m)) with (Z.pos (digits2_pos m)).
  pose proof (Zdigits2_gt (Z.pos m) ltac:(lia)) as Hg.
  change (Zdigits2 (Z.pos m)) with (Z.pos (digits2_pos m)) in Hg.
  set (d1 := Z.pos (digits2_pos m)) in *.
  assert (Hd1 : 0 < d1 <= 24) by (unfold fexp, emin in Hc; lia).
  set (e' := Z.min (fexp 24 128 (d1 + e - (24 + -16))) (e - -16)).
  assert (He' : e' <= 96) by (unfold e', fexp, emin; lia).
  set (s := e - -16 - e').
  assert (Hs : 0 <= s) by (unfold s, e'; lia).
  set (m' := match s with Z.pos _ => Z.shiftl (Z.pos m) s | 0 => Z.pos m | Z.neg _ => 0 end).
  assert (Hm' : 0 <= m' < 2 ^ (d1 + s)).
  { unfold m'. destruct s as [| ps | ps] eqn:Es; try lia.
    - rewrite Z.add_0_r. lia.
    - rewrite Z.shiftl_mul_pow2 by lia. rewrite Z.pow_add_r by lia.
      assert (0 < 2 ^ Z.pos ps) by (apply Z.pow_pos_nonneg; lia). nia. }
  pose proof (Z.div_pos m' (Z.pos 16711680) ltac:(lia) ltac:(lia)) as Hq0.
  assert (Hq : m' / Z.pos 16711680 < 2 ^ Z.max 0 (d1 + s - 23)).
  { destruct (Z_lt_le_dec (d1 + s) 23) as [Hlt | Hge].
    - rewrite Z.max_l by lia. rewrite Z.div_small; [simpl; lia |].
      split; [lia |].
      assert (2 ^ (d1 + s) <= 2 ^ 22) by (apply Z.pow_le_mono_r; lia).
      change (2 ^ 22) with 4194304 in *. lia.
    - rewrite Z.max_r by lia.
      apply Z.div_lt_upper_bound; [lia |].
      assert (Hp : 2 ^ (d1 + s) = 2 ^ 23 * 2 ^ (d1 + s - 23)).
      { rewrite <- Z.pow_add_r by lia. f_equal. lia. }
      assert (0 < 2 ^ (d1 + s - 23)) by (apply Z.pow_pos_nonneg; lia).
      change (2 ^ 23) with 8388608 in Hp. nia. }
  unfold Z.div in Hq0, Hq.
  destruct (Z.div_eucl m' (Z.pos 16711680)) as [q r].
  split; [exact Hq0 |]. split; [| lia].
  pose proof (Zdigits2_le q (Z.max 0 (d1 + s - 23)) ltac:(lia) ltac:(lia)).
  unfold s in *. lia.
Qed.

Lemma div_255_finite : forall x : binary32,
  valid_binary 24 128 x = true ->
  b32_is_finite x = true ->
  b32_is_finite (truediv x (lit 255)) = true.
Proof.
  intros x Hv Hf.
  change (lit 255 : binary32) with (S754_finite false 16711680 (-16)).
  destruct x as [s | s | | s m e]; try discriminate; [reflexivity |].
  cbn [truediv binary32_Arith SFdiv].
  pose proof (div_255_core_bounds m e Hv) as Hc.
  destruct (SFdiv_core_binary 24 128 (Z.pos m) e (Z.pos 16711680) (-16))
    as [[mz ez] lz].
  destruct Hc as [H0 [Hd He]].
  pose proof (binary_round_aux_finite (xorb s false) mz ez lz H0 Hd He) as Hr.
  destruct (binary_round_aux 24 128 (xorb s false) mz ez lz);
    try contradiction; reflexivity.
Qed.

End NoOverflow.

Set Implicit Arguments.

(** X11. In binary32 [Normalize.call] never overflows: wherever the input
    holds a zero or a finite binary32 number, the output holds a zero or a
    finite number, never an infinity nor a NaN. *)
Theorem normalize_never_overflows :
  forall (self : layer binary32) (T out : tensor binary32)
         (idx : list nat) (x : binary32),
    snd (Normalize.call self T) = Ok out ->
    tget T idx = Some x ->
    valid_binary 24 128 x = true ->
    b32_is_finite x = true ->
    exists y, tget out idx = Some y /\ b32_is_finite y = true.
Proof.
  intros self T out idx x Ho Hx Hv Hf.
  apply normalize_call_inv in Ho; [| exact binary32_ArithLaws]. subst out.
  exists (truediv x (lit 255)). rewrite tget_tmap, Hx. simpl option_map.
  split; [reflexivity |]. now apply div_255_finite.
Qed.

Lemma normalize_never_overflows_witness :
  exists y,
    tget (tmap (fun x => SFdiv 24 128 x (b32_of_Z 255))
            (mkTensor [2]
               [S754_finite false 16777215 104; S754_finite true 1 (-149)]))
         [0]
    = Some y /\
    b32_is_finite y = true.
Proof.
  apply (@normalize_never_overflows Normalize.init
           (mkTensor [2]
              [S754_finite false 16777215 104; S754_finite true 1 (-149)])
           _ [0] (S754_finite false 16777215 104)).
  - reflexivity.
  - reflexivity.
  - reflexivity.
  - reflexivity.
Defined.
